(** * Trusted-proxy client address resolution (src/utils/request_utils.py)

    A shallow embedding of [get_client_ip] and [extract_ip_from_headers],
    together with the fragments of Python's [str] and [list] semantics they
    rely on, followed by the properties of the resolver.  The other
    functions of the module, [get_user_agent], [get_request_id] and
    [get_request_metadata], are embedded as well.

    Conventions of the embedding.
    - A Python [str] is a [string]; a character is a code point below 256,
      which is what the framework hands over for an HTTP header (header
      bytes decoded as Latin-1).
    - A Python [int] is a [Z].
    - A Python [dict] from header names to header values is a
      [gmap string string].
    - A call either returns a string or raises; see [outcome]. *)

From Stdlib Require Import ZArith Ascii String List Bool Lia.
From stdpp Require Import base strings list gmap.

Local Open Scope string_scope.
Local Open Scope Z_scope.

(** ** Python built-ins used by the module *)

Module Py.

(** [str.isspace] on one character, for code points below 256:
    TAB..CR, FS..US, SPACE, NEL and NBSP. *)
Definition isspace (c : ascii) : bool :=
  let n := N_of_ascii c in
  ((9 <=? n) && (n <=? 13) || (28 <=? n) && (n <=? 32)
   || (n =? 133) || (n =? 160))%N.

(** Truth value of a [str]: the empty string is false. *)
Definition truthy (s : string) : bool :=
  match s with
  | EmptyString => false
  | String _ _ => true
  end.

Fixpoint lstrip (s : string) : string :=
  match s with
  | EmptyString => EmptyString
  | String c r => if isspace c then lstrip r else s
  end.

Fixpoint rstrip (s : string) : string :=
  match s with
  | EmptyString => EmptyString
  | String c r =>
      match rstrip r with
      | EmptyString =>
          if isspace c then EmptyString else String c EmptyString
      | String _ _ as r' => String c r'
      end
  end.

(** Truth value of a [list]: the empty list is false. *)
Definition nonempty {A} (l : list A) : bool :=
  match l with
  | [] => false
  | _ :: _ => true
  end.

(** [s.strip()]: whitespace removed at both ends. *)
Definition strip (s : string) : string := rstrip (lstrip s).

(** [s.split(sep)] for a one-character separator.  The result is never
    empty: [''.split(',')] is [['']]. *)
Fixpoint split (sep : ascii) (s : string) : list string :=
  match s with
  | EmptyString => [EmptyString]
  | String c r =>
      if Ascii.eqb c sep then EmptyString :: split sep r
      else
        match split sep r with
        | piece :: pieces => String c piece :: pieces
        | [] => [String c EmptyString]
        end
  end.

(** [sep.join(pieces)], the inverse of [split]. *)
Fixpoint join (sep : ascii) (pieces : list string) : string :=
  match pieces with
  | [] => EmptyString
  | [piece] => piece
  | piece :: rest => piece +:+ String sep (join sep rest)
  end.

(** [c.lower()] for a code point below 256: A..Z and the Latin-1 capitals
    À..Þ (without the multiplication sign) move up by 32. *)
Definition lower_char (c : ascii) : ascii :=
  let n := N_of_ascii c in
  if ((65 <=? n) && (n <=? 90)
      || (192 <=? n) && (n <=? 222) && negb (n =? 215))%N
  then ascii_of_N (n + 32) else c.

Fixpoint lower (s : string) : string :=
  match s with
  | EmptyString => EmptyString
  | String c r => String (lower_char c) (lower r)
  end.

(** [l[i]]: a negative index counts from the end; [None] stands for
    [IndexError]. *)
Definition getitem {A} (l : list A) (i : Z) : option A :=
  let n := Z.of_nat (length l) in
  let j := if i <? 0 then i + n else i in
  if (j <? 0) || (n <=? j) then None else l !! Z.to_nat j.

End Py.

(** ** The framework's request object *)

(** [request.client]: the peer of the connection. *)
Record Address := { host : string; port : Z }.

(** Modelled from the spec: the request object of the web framework is not
    part of the module.  The spec's RequestContext exposes a
    case-insensitive header lookup and an optional transport-level peer
    address; the header list is kept in arrival order and a lookup returns
    the first field whose name matches without regard to case. *)
Record Request := {
  headers : list (string * string);
  client : option Address
}.

(** Modelled from the spec: [request.headers.get(key)], the case-insensitive
    header lookup of the framework; [None] when no field has the name. *)
Fixpoint headers_get (hs : list (string * string)) (key : string)
  : option string :=
  match hs with
  | [] => None
  | (name, value) :: rest =>
      if String.eqb (Py.lower name) (Py.lower key) then Some value
      else headers_get rest key
  end.

(** ** Results of a call *)

Inductive exn := IndexError.

Inductive outcome :=
| Return (value : string)
| Raise (e : exn).

(** A block of statements either leaves the function with an outcome or
    falls through to the next block. *)
Definition block := option outcome.

Definition or_else (b : block) (rest : outcome) : outcome :=
  match b with
  | Some out => out
  | None => rest
  end.

Notation "b ;;; rest" := (or_else b rest)
  (at level 100, right associativity, only parsing).

Definition return_item (l : list string) (i : Z) : outcome :=
  match Py.getitem l i with
  | Some x => Return x
  | None => Raise IndexError
  end.

(** ** request_utils.py *)

(** The comprehension
    [[ip.strip() for ip in forwarded_for.split(",") if ip.strip()]]. *)
Fixpoint comprehension (pieces : list string) : list string :=
  match pieces with
  | [] => []
  | ip :: rest =>
      if Py.truthy (Py.strip ip) then Py.strip ip :: comprehension rest
      else comprehension rest
  end.

Definition ips (forwarded_for : string) : list string :=
  comprehension (Py.split "," forwarded_for).

(** Lines 43-50 and 132-137: the block guarded by [if forwarded_for:]. *)
Definition forwarded_for_block (forwarded_for : string)
    (trusted_proxy_count : Z) : block :=
  if Py.truthy forwarded_for then
    let ips := ips forwarded_for in
    if Z.of_nat (length ips) >? trusted_proxy_count then
      Some (return_item ips (- (trusted_proxy_count + 1)))
    else if Py.nonempty ips then
      Some (return_item ips 0)
    else None
  else None.

(** Lines 54-55 and 141-142: the block guarded by [if real_ip:]. *)
Definition real_ip_block (real_ip : string) : block :=
  if Py.truthy real_ip then Some (Return (Py.strip real_ip)) else None.

(** Lines 37-38 and 58-59: [if request.client and request.client.host:]. *)
Definition client_block (request : Request) : block :=
  match client request with
  | Some c => if Py.truthy (host c) then Some (Return (host c)) else None
  | None => None
  end.

(** [headers.get(key)] yields [None] for a missing header, which is false
    in a condition just as the empty string is. *)
Definition or_empty (v : option string) : string := default "" v.

(** [get_client_ip]; [trusted_proxy_count] is the value read from
    [config.trusted_proxy_count] on the first line of the function. *)
Definition get_client_ip (trusted_proxy_count : Z) (request : Request)
  : outcome :=
  if trusted_proxy_count =? 0 then
    client_block request ;;; Return "unknown"
  else
    forwarded_for_block
      (or_empty (headers_get (headers request) "X-Forwarded-For"))
      trusted_proxy_count ;;;
    real_ip_block (or_empty (headers_get (headers request) "X-Real-IP")) ;;;
    client_block request ;;;
    Return "unknown".

(** [extract_ip_from_headers]; [config_trusted_proxy_count] is the
    configured value, used when the optional argument is [None]. *)
Definition extract_ip_from_headers (config_trusted_proxy_count : Z)
    (headers : gmap string string) (trusted_proxy_count : option Z)
  : outcome :=
  let trusted_proxy_count :=
    match trusted_proxy_count with
    | None => config_trusted_proxy_count
    | Some n => n
    end in
  if trusted_proxy_count =? 0 then Return "unknown"
  else
    forwarded_for_block (default "" (headers !! "x-forwarded-for"))
      trusted_proxy_count ;;;
    real_ip_block (default "" (headers !! "x-real-ip")) ;;;
    Return "unknown".

(** ** The rest of request_utils.py *)

(** [get_user_agent]: [request.headers.get("User-Agent", "unknown")]. *)
Definition get_user_agent (request : Request) : string :=
  default "unknown" (headers_get (headers request) "User-Agent").

(** Modelled from the spec: what the aggregator reads of the framework's
    request besides its headers and client: the attributes set on
    [request.state], [request.method], [request.url.path] and the parsed
    [request.query_params] (a multi-dict, which is false when it has no
    item). *)
Record RequestView := {
  request_of : Request;
  state : gmap string string;
  method : string;
  url_path : string;
  query_params : list (string * string)
}.

(** [get_request_id]: [getattr(request.state, "request_id", None)]. *)
Definition get_request_id (request : RequestView) : option string :=
  state request !! "request_id".

(** A call that returns a value of type [A] or raises. *)
Inductive result (A : Type) :=
| Ok (value : A)
| Err (e : exn).

Arguments Ok {A} value.
Arguments Err {A} e.

(** A dict display [{k1: v1, ..., kn: vn}]: the items are stored from left
    to right.  A value is a [str] or [None]. *)
Definition dict_display (items : list (string * option string))
  : gmap string (option string) :=
  foldl (λ d item, <[item.1 := item.2]> d) ∅ items.

Section Aggregator.

(** [str(request.query_params)], the framework's rendering of the query
    parameters. *)
Variable str_query_params : list (string * string) → string.

(** [get_request_metadata]; the call of [get_client_ip] comes first, and an
    exception it raises leaves the function. *)
Definition get_request_metadata (trusted_proxy_count : Z)
    (request : RequestView) : result (gmap string (option string)) :=
  match get_client_ip trusted_proxy_count (request_of request) with
  | Raise e => Err e
  | Return client_ip =>
      Ok (dict_display
            [("client_ip", Some client_ip);
             ("user_agent", Some (get_user_agent (request_of request)));
             ("request_id", get_request_id request);
             ("method", Some (method request));
             ("path", Some (url_path request));
             ("query_params",
              if Py.nonempty (query_params request)
              then Some (str_query_params (query_params request))
              else None);
             ("content_type",
              headers_get (headers (request_of request)) "Content-Type");
             ("content_length",
              headers_get (headers (request_of request)) "Content-Length")])
  end.

End Aggregator.

(** ** Vocabulary of the specification *)

(** Every character of [s] is whitespace (in particular, [s] may be empty). *)
Fixpoint all_space (s : string) : bool :=
  match s with
  | EmptyString => true
  | String c r => Py.isspace c && all_space r
  end.

Definition starts_with_space (s : string) : bool :=
  match s with
  | EmptyString => false
  | String c _ => Py.isspace c
  end.

Fixpoint ends_with_space (s : string) : bool :=
  match s with
  | EmptyString => false
  | String c EmptyString => Py.isspace c
  | String _ r => ends_with_space r
  end.

(** The character [c] occurs in [s]. *)
Fixpoint occurs (c : ascii) (s : string) : bool :=
  match s with
  | EmptyString => false
  | String d r => Ascii.eqb d c || occurs c r
  end.

(** The Proxy-Chain Parser as the specification words it: split on comma,
    trim each piece, discard the empty pieces, keep the order; an absent
    header gives the empty sequence. *)
Definition spec_proxy_chain (raw : option string) : list string :=
  match raw with
  | None => []
  | Some s => filter (λ token, token ≠ "") (Py.strip <$> Py.split "," s)
  end.

(** The Trust-Depth Selector as the specification words it: with more than
    [n] entries the entry at index [length - n - 1], otherwise the
    outermost entry. *)
Definition spec_select (chain : list string) (n : Z) : option string :=
  if n <? Z.of_nat (length chain)
  then chain !! Z.to_nat (Z.of_nat (length chain) - n - 1)
  else chain !! 0%nat.

(** The transport-level peer address of a request, when there is one: the
    test [request.client and request.client.host] of the module. *)
Definition peer_address (request : Request) : option string :=
  match client request with
  | Some c => if Py.truthy (host c) then Some (host c) else None
  | None => None
  end.

(** The trust depth in force in a call of [extract_ip_from_headers]. *)
Definition depth_in_force (config_trusted_proxy_count : Z)
    (trusted_proxy_count : option Z) : Z :=
  default config_trusted_proxy_count trusted_proxy_count.

(** ** Python strings and lists *)

Section PyFacts.

Lemma truthy_true s : Py.truthy s = true ↔ s ≠ "".
Proof. destruct s; simpl; split; congruence. Qed.

Lemma truthy_false s : Py.truthy s = false ↔ s = "".
Proof. destruct s; simpl; split; congruence. Qed.

Lemma append_cons c l r : String c l +:+ r = String c (l +:+ r).
Proof. reflexivity. Qed.

Lemma append_empty r : "" +:+ r = r.
Proof. reflexivity. Qed.

Lemma lstrip_all_space s : all_space s = true → Py.lstrip s = "".
Proof.
  induction s as [|c r IH]; simpl; [done|].
  intros [Hc Hr]%andb_true_iff. rewrite Hc. auto.
Qed.

Lemma lstrip_decompose s :
  ∃ l, s = l +:+ Py.lstrip s ∧ all_space l = true
       ∧ starts_with_space (Py.lstrip s) = false.
Proof.
  induction s as [|c r (l & Hs & Hl & Hf)]; simpl.
  - by exists "".
  - destruct (Py.isspace c) eqn:Hc.
    + exists (String c l). rewrite append_cons, <- Hs. simpl.
      by rewrite Hc, Hl.
    + exists "". simpl. by rewrite Hc.
Qed.

Lemma rstrip_decompose s :
  ∃ r, s = Py.rstrip s +:+ r ∧ all_space r = true
       ∧ ends_with_space (Py.rstrip s) = false.
Proof.
  induction s as [|c s (r & Hs & Hr & Hf)]; simpl.
  - by exists "".
  - destruct (Py.rstrip s) as [|d t] eqn:Ht.
    + rewrite append_empty in Hs. subst r.
      destruct (Py.isspace c) eqn:Hc.
      * exists (String c s). simpl. by rewrite Hc, Hr.
      * exists s. simpl. by rewrite Hc.
    + exists r. rewrite append_cons, <- Hs. by destruct t.
Qed.

Lemma rstrip_keeps_start s :
  starts_with_space s = false → starts_with_space (Py.rstrip s) = false.
Proof.
  destruct s as [|c r]; simpl; [done|]. intros Hc.
  destruct (Py.rstrip r); [rewrite Hc|]; simpl; done.
Qed.

Lemma all_space_app l r :
  all_space (l +:+ r) = all_space l && all_space r.
Proof.
  induction l as [|c l IH]; [done|].
  rewrite append_cons. simpl. by rewrite IH, andb_assoc.
Qed.

(** [strip] removes a whitespace prefix and a whitespace suffix, and what
    is left neither starts nor ends with whitespace. *)
Lemma strip_decompose s :
  ∃ l r, s = l +:+ Py.strip s +:+ r
         ∧ all_space l = true ∧ all_space r = true
         ∧ starts_with_space (Py.strip s) = false
         ∧ ends_with_space (Py.strip s) = false.
Proof.
  unfold Py.strip.
  destruct (lstrip_decompose s) as (l & Hs & Hl & Hf).
  destruct (rstrip_decompose (Py.lstrip s)) as (r & Hs' & Hr & Hf').
  exists l, r. repeat split; try done.
  - by rewrite <- Hs'.
  - by apply rstrip_keeps_start.
Qed.

Lemma strip_empty_iff s : Py.strip s = "" ↔ all_space s = true.
Proof.
  split.
  - intros H. destruct (strip_decompose s) as (l & r & Hs & Hl & Hr & _).
    rewrite Hs, H, append_empty, all_space_app. by rewrite Hl, Hr.
  - intros H. unfold Py.strip. by rewrite lstrip_all_space.
Qed.

Lemma split_nonempty sep s : Py.split sep s ≠ [].
Proof. induction s as [|c r IH]; simpl; [done|]. by repeat case_match. Qed.

Lemma join_cons_char sep c p ps :
  Py.join sep (String c p :: ps) = String c (Py.join sep (p :: ps)).
Proof. by destruct ps. Qed.

(** Joining the pieces with the separator gives the string back. *)
Lemma join_split sep s : Py.join sep (Py.split sep s) = s.
Proof.
  induction s as [|c r IH]; [done|]. simpl.
  pose proof (split_nonempty sep r) as Hne.
  destruct (Ascii.eqb_spec c sep) as [->|_].
  - destruct (Py.split sep r) as [|p ps]; [done|].
    change (Py.join sep ("" :: p :: ps))
      with ("" +:+ String sep (Py.join sep (p :: ps))).
    by rewrite append_empty, IH.
  - destruct (Py.split sep r) as [|p ps]; [done|].
    by rewrite join_cons_char, IH.
Qed.

(** No piece contains the separator. *)
Lemma split_pieces_free sep s :
  Forall (λ piece, occurs sep piece = false) (Py.split sep s).
Proof.
  induction s as [|c r IH]; simpl.
  - by constructor.
  - destruct (Ascii.eqb_spec c sep) as [->|Hne].
    + by constructor.
    + destruct (Py.split sep r) as [|p ps]; simpl.
      * constructor; [|done]. simpl.
        destruct (Ascii.eqb_spec c sep); [done|]. done.
      * inversion IH; subst. constructor; [|done]. simpl.
        destruct (Ascii.eqb_spec c sep); [done|]. done.
Qed.

Lemma getitem_from_end {A} (l : list A) n :
  0 ≤ n → n < Z.of_nat (length l) →
  Py.getitem l (- (n + 1))
  = l !! Z.to_nat (Z.of_nat (length l) - n - 1).
Proof.
  intros H0 Hn. unfold Py.getitem.
  destruct (Z.ltb_spec (- (n + 1)) 0); [|lia].
  destruct (Z.ltb_spec (- (n + 1) + Z.of_nat (length l)) 0); [lia|].
  destruct (Z.leb_spec (Z.of_nat (length l))
              (- (n + 1) + Z.of_nat (length l))); [lia|].
  simpl. f_equal. lia.
Qed.

Lemma getitem_zero {A} (l : list A) : Py.getitem l 0 = l !! 0%nat.
Proof.
  unfold Py.getitem. simpl. destruct l as [|x l]; [done|].
  destruct (Z.leb_spec (Z.of_nat (length (x :: l))) 0) as [H|H]; [|done].
  simpl in H. lia.
Qed.

End PyFacts.

(** ** The parsed chain *)

Section Chain.

Lemma comprehension_filter pieces :
  comprehension pieces = filter (λ token, token ≠ "") (Py.strip <$> pieces).
Proof.
  induction pieces as [|ip rest IH]; [done|]. rewrite fmap_cons. simpl.
  destruct (Py.strip ip) eqn:E; simpl.
  - by rewrite filter_cons_False by (intros H; by apply H).
  - rewrite filter_cons_True by done. by rewrite IH.
Qed.

Lemma ips_spec s : ips s = spec_proxy_chain (Some s).
Proof. apply comprehension_filter. Qed.

Lemma ips_empty_string : ips "" = [].
Proof. reflexivity. Qed.

Lemma split_free sep s : occurs sep s = false → Py.split sep s = [s].
Proof.
  induction s as [|c r IH]; simpl; [done|].
  intros [Hc Hr]%orb_false_iff. by rewrite Hc, (IH Hr).
Qed.

Lemma all_space_no_comma s : all_space s = true → occurs "," s = false.
Proof.
  induction s as [|c r IH]; simpl; [done|].
  intros [Hc Hr]%andb_true_iff. rewrite (IH Hr), orb_false_r.
  destruct (Ascii.eqb_spec c ","); [by subst|done].
Qed.

Lemma ips_all_space s : all_space s = true → ips s = [].
Proof.
  intros H. unfold ips. rewrite split_free by by apply all_space_no_comma.
  simpl. apply strip_empty_iff in H. by rewrite H.
Qed.

(** Every entry of the chain is the trimmed form of one comma-separated
    piece of the header, and is not empty. *)
Lemma elem_of_ips x s :
  x ∈ ips s ↔ ∃ piece, piece ∈ Py.split "," s ∧ x = Py.strip piece ∧ x ≠ "".
Proof.
  rewrite ips_spec. unfold spec_proxy_chain.
  rewrite list_elem_of_filter, list_elem_of_fmap. split.
  - intros [Hx (piece & -> & Hp)]. by exists piece.
  - intros (piece & Hp & -> & Hx). split; [done|]. by exists piece.
Qed.

Lemma return_item_from_end (l : list string) n x :
  0 ≤ n → l !! Z.to_nat (Z.of_nat (length l) - n - 1) = Some x →
  n < Z.of_nat (length l) →
  return_item l (- (n + 1)) = Return x.
Proof.
  intros H0 Hx Hn. unfold return_item.
  by rewrite getitem_from_end, Hx by done.
Qed.

Lemma return_item_first (l : list string) x :
  l !! 0%nat = Some x → return_item l 0 = Return x.
Proof. intros Hx. unfold return_item. by rewrite getitem_zero, Hx. Qed.

(** With a non-negative trust depth the block does what the selector of
    the specification does on the parsed chain, and falls through exactly
    when the chain is empty. *)
Lemma forwarded_for_block_select s n :
  0 ≤ n → forwarded_for_block s n = Return <$> spec_select (ips s) n.
Proof.
  intros H0. unfold forwarded_for_block, spec_select.
  destruct (Py.truthy s) eqn:Hs.
  - simpl. destruct (Z.gtb_spec (Z.of_nat (length (ips s))) n) as [Hn|Hn].
    + destruct (Z.ltb_spec n (Z.of_nat (length (ips s)))); [|lia].
      destruct (lookup_lt_is_Some_2 (ips s)
                  (Z.to_nat (Z.of_nat (length (ips s)) - n - 1))) as [x Hx];
        [lia|].
      rewrite Hx. simpl. f_equal. by apply return_item_from_end.
    + destruct (Z.ltb_spec n (Z.of_nat (length (ips s)))); [lia|].
      destruct (ips s) as [|x l]; [done|]. simpl.
      by rewrite (return_item_first (x :: l) x).
  - apply truthy_false in Hs. subst s. rewrite ips_empty_string.
    destruct (Z.ltb_spec n (Z.of_nat (length (@nil string))));
      [simpl in *; lia|done].
Qed.

Lemma spec_select_is_Some chain n :
  0 ≤ n → chain ≠ [] → is_Some (spec_select chain n).
Proof.
  intros H0 Hne. unfold spec_select.
  destruct (Z.ltb_spec n (Z.of_nat (length chain))).
  - apply lookup_lt_is_Some_2. lia.
  - destruct chain; [done|]. by eexists.
Qed.

Lemma spec_select_elem chain n x : spec_select chain n = Some x → x ∈ chain.
Proof.
  unfold spec_select. case_match; intros Hx; by eapply list_elem_of_lookup_2.
Qed.

End Chain.

(** ** The two resolvers *)

Section Resolvers.

Lemma client_block_peer request :
  (client_block request ;;; Return "unknown")
  = Return (default "unknown" (peer_address request)).
Proof.
  unfold client_block, peer_address.
  destruct (client request) as [c|]; [|done]. by destruct (Py.truthy (host c)).
Qed.

Lemma get_client_ip_zero request :
  get_client_ip 0 request
  = Return (default "unknown" (peer_address request)).
Proof. apply client_block_peer. Qed.

(** With a positive trust depth, [get_client_ip] is the selector on the
    chain of X-Forwarded-For, then X-Real-IP, then the peer address. *)
Lemma get_client_ip_positive n request :
  0 < n →
  get_client_ip n request
  = match spec_select
            (ips (or_empty (headers_get (headers request) "X-Forwarded-For")))
            n with
    | Some x => Return x
    | None =>
        (real_ip_block (or_empty (headers_get (headers request) "X-Real-IP"))
         ;;; Return (default "unknown" (peer_address request)))
    end.
Proof.
  intros Hn. unfold get_client_ip.
  destruct (Z.eqb_spec n 0) as [|_]; [lia|].
  rewrite forwarded_for_block_select, client_block_peer by lia.
  by destruct (spec_select _ n).
Qed.

Lemma extract_ip_from_headers_positive cfg (hdrs : gmap string string) tpc :
  0 < depth_in_force cfg tpc →
  extract_ip_from_headers cfg hdrs tpc
  = match spec_select (ips (default "" (hdrs !! "x-forwarded-for")))
            (depth_in_force cfg tpc) with
    | Some x => Return x
    | None => (real_ip_block (default "" (hdrs !! "x-real-ip"))
               ;;; Return "unknown")
    end.
Proof.
  intros Hn. unfold extract_ip_from_headers.
  replace (match tpc with Some n => n | None => cfg end)
    with (depth_in_force cfg tpc) by by destruct tpc.
  destruct (Z.eqb_spec (depth_in_force cfg tpc) 0) as [|_]; [lia|].
  rewrite forwarded_for_block_select by lia.
  by destruct (spec_select _ _).
Qed.

Lemma spec_select_long (chain : list string) n :
  n < Z.of_nat (length chain) →
  spec_select chain n
  = chain !! Z.to_nat (Z.of_nat (length chain) - n - 1).
Proof.
  intros Hn. unfold spec_select.
  by destruct (Z.ltb_spec n (Z.of_nat (length chain))); [|lia].
Qed.

Lemma spec_select_short (chain : list string) n :
  Z.of_nat (length chain) ≤ n → spec_select chain n = chain !! 0%nat.
Proof.
  intros Hn. unfold spec_select.
  by destruct (Z.ltb_spec n (Z.of_nat (length chain))); [lia|].
Qed.

Lemma spec_select_empty n : 0 ≤ n → spec_select [] n = None.
Proof. intros Hn. by rewrite spec_select_short by (simpl; lia). Qed.

(** The lookup of the request object disregards the case of the name. *)
Lemma headers_get_first name value rest key :
  Py.lower name = Py.lower key →
  headers_get ((name, value) :: rest) key = Some value.
Proof. intros H. simpl. by rewrite H, String.eqb_refl. Qed.

Lemma chain_of_header h : ips (or_empty h) = spec_proxy_chain h.
Proof. destruct h as [s|]; [apply ips_spec|done]. Qed.

(** Without a usable chain, a non-empty X-Real-IP is returned trimmed. *)
Lemma real_ip_after_empty_chain n request w :
  0 < n →
  spec_proxy_chain (headers_get (headers request) "X-Forwarded-For") = [] →
  headers_get (headers request) "X-Real-IP" = Some w → w ≠ "" →
  get_client_ip n request = Return (Py.strip w).
Proof.
  intros Hn Hchain Hreal Hw.
  rewrite get_client_ip_positive, chain_of_header, Hchain by done.
  rewrite spec_select_empty, Hreal by lia.
  unfold real_ip_block, or_empty. simpl.
  apply truthy_true in Hw. by rewrite Hw.
Qed.

Lemma extract_real_ip_after_empty_chain cfg (hdrs : gmap string string)
    tpc w :
  0 < depth_in_force cfg tpc →
  spec_proxy_chain (hdrs !! "x-forwarded-for") = [] →
  hdrs !! "x-real-ip" = Some w → w ≠ "" →
  extract_ip_from_headers cfg hdrs tpc = Return (Py.strip w).
Proof.
  intros Hn Hchain Hreal Hw.
  rewrite extract_ip_from_headers_positive by done.
  change (default "" ?h) with (or_empty h).
  rewrite chain_of_header, Hchain, spec_select_empty, Hreal by lia.
  unfold real_ip_block, or_empty. simpl.
  apply truthy_true in Hw. by rewrite Hw.
Qed.

(** A header that is not empty but holds only whitespace passes the guard
    of the X-Real-IP block and comes back as the empty string. *)
Lemma real_ip_block_whitespace w :
  w ≠ "" → all_space w = true → real_ip_block w = Some (Return "").
Proof.
  intros Hw Hsp. unfold real_ip_block.
  apply truthy_true in Hw. apply strip_empty_iff in Hsp. by rewrite Hw, Hsp.
Qed.

(** The index is guarded by the length test only for a depth that is not
    negative: with depth -1 a header of separators alone raises. *)
Example negative_depth_raises :
  get_client_ip (-1)
    {| headers := [("X-Forwarded-For", " , ")]; client := None |}
  = Raise IndexError.
Proof. reflexivity. Qed.

End Resolvers.

(** ** Properties of the resolver *)

(** C1 (zero-trust invariant).  With trust depth 0, [get_client_ip] returns
    the transport-level peer address when the request has one (a client
    whose host is not empty) and the sentinel ["unknown"] otherwise; two
    requests with the same client give the same result whatever their
    headers are. *)
Theorem zero_trust_depth_peer_only :
  (∀ request,
     get_client_ip 0 request
     = Return (default "unknown" (peer_address request)))
  ∧ (∀ hs c, Py.truthy (host c) = true →
       get_client_ip 0 {| headers := hs; client := Some c |}
       = Return (host c))
  ∧ (∀ hs, get_client_ip 0 {| headers := hs; client := None |}
           = Return "unknown")
  ∧ (∀ hs hs' c,
       get_client_ip 0 {| headers := hs; client := c |}
       = get_client_ip 0 {| headers := hs'; client := c |}).
Proof.
  split; [|split; [|split]].
  - apply get_client_ip_zero.
  - intros hs c Hc. rewrite get_client_ip_zero.
    unfold peer_address. simpl. by rewrite Hc.
  - intros hs. by rewrite get_client_ip_zero.
  - intros hs hs' c. by rewrite !get_client_ip_zero.
Qed.

Lemma zero_trust_depth_peer_only_witness :
  get_client_ip 0
    {| headers := [("X-Forwarded-For", "1.2.3.4, 10.0.0.1");
                   ("X-Real-IP", "9.9.9.9")];
       client := Some {| host := "203.0.113.5"; port := 51234 |} |}
  = Return "203.0.113.5".
Proof.
  apply (proj1 (proj2 zero_trust_depth_peer_only)). reflexivity.
Defined.

(** C2 (chain indexing law).  For a trust depth [N > 0] and an
    X-Forwarded-For header whose parsed chain has [M > N] entries, both
    [get_client_ip] and [extract_ip_from_headers] return the entry at index
    [M - N - 1], counted from the outermost entry. *)
Theorem chain_indexing_law (N : Z) (v : string) :
  0 < N → N < Z.of_nat (length (ips v)) →
  ∃ x, ips v !! Z.to_nat (Z.of_nat (length (ips v)) - N - 1) = Some x
       ∧ (∀ request,
            headers_get (headers request) "X-Forwarded-For" = Some v →
            get_client_ip N request = Return x)
       ∧ (∀ cfg (hdrs : gmap string string) tpc,
            depth_in_force cfg tpc = N →
            hdrs !! "x-forwarded-for" = Some v →
            extract_ip_from_headers cfg hdrs tpc = Return x).
Proof.
  intros HN HM.
  destruct (lookup_lt_is_Some_2 (ips v)
              (Z.to_nat (Z.of_nat (length (ips v)) - N - 1))) as [x Hx];
    [lia|].
  exists x. split; [done|]. split.
  - intros request Hv.
    rewrite get_client_ip_positive, Hv by done.
    change (or_empty (Some v)) with v. by rewrite spec_select_long, Hx.
  - intros cfg hdrs tpc <- Hv.
    rewrite extract_ip_from_headers_positive, Hv by done.
    change (default "" (Some v)) with v. by rewrite spec_select_long, Hx.
Qed.

Lemma chain_indexing_law_witness :
  get_client_ip 1
    {| headers := [("X-Forwarded-For", "1.2.3.4, 10.0.0.1, 10.0.0.2")];
       client := None |}
  = Return "10.0.0.1"
  ∧ extract_ip_from_headers 0
      {[ "x-forwarded-for" := "1.2.3.4, 10.0.0.1, 10.0.0.2" ]} (Some 1)
    = Return "10.0.0.1".
Proof.
  destruct (chain_indexing_law 1 "1.2.3.4, 10.0.0.1, 10.0.0.2")
    as (x & Hx & Hget & Hextract); [lia | vm_compute; reflexivity |].
  vm_compute in Hx. injection Hx as <-. split.
  - apply Hget. reflexivity.
  - apply Hextract; reflexivity.
Defined.

(** C5 (short-chain fallback).  For a trust depth [N > 0] and an
    X-Forwarded-For header whose parsed chain has [M] entries with
    [1 <= M <= N], both resolvers return the outermost entry, [chain[0]]. *)
Theorem short_chain_fallback (N : Z) (v : string) :
  0 < N → 1 ≤ Z.of_nat (length (ips v)) → Z.of_nat (length (ips v)) ≤ N →
  ∃ x, ips v !! 0%nat = Some x
       ∧ (∀ request,
            headers_get (headers request) "X-Forwarded-For" = Some v →
            get_client_ip N request = Return x)
       ∧ (∀ cfg (hdrs : gmap string string) tpc,
            depth_in_force cfg tpc = N →
            hdrs !! "x-forwarded-for" = Some v →
            extract_ip_from_headers cfg hdrs tpc = Return x).
Proof.
  intros HN H1 HM.
  destruct (lookup_lt_is_Some_2 (ips v) 0) as [x Hx]; [lia|].
  exists x. split; [done|]. split.
  - intros request Hv.
    rewrite get_client_ip_positive, Hv by done.
    change (or_empty (Some v)) with v. by rewrite spec_select_short, Hx.
  - intros cfg hdrs tpc <- Hv.
    rewrite extract_ip_from_headers_positive, Hv by done.
    change (default "" (Some v)) with v. by rewrite spec_select_short, Hx.
Qed.

Lemma short_chain_fallback_witness :
  get_client_ip 2
    {| headers := [("X-Forwarded-For", "1.2.3.4")]; client := None |}
  = Return "1.2.3.4"
  ∧ extract_ip_from_headers 2 {[ "x-forwarded-for" := "1.2.3.4" ]} None
    = Return "1.2.3.4".
Proof.
  destruct (short_chain_fallback 2 "1.2.3.4")
    as (x & Hx & Hget & Hextract);
    [lia | vm_compute; discriminate | vm_compute; discriminate |].
  vm_compute in Hx. injection Hx as <-. split.
  - apply Hget. reflexivity.
  - apply Hextract; reflexivity.
Defined.

(** C3 (X-Real-IP guard).  At trust depth 1, with no X-Forwarded-For
    header and an X-Real-IP header holding a single space, [get_client_ip]
    returns the empty string although the request has the peer address
    ["198.51.100.7"], and [extract_ip_from_headers] returns the empty
    string rather than the sentinel: the guard [if real_ip:] looks at the
    value before it is trimmed. *)
Theorem real_ip_whitespace_only_returned :
  get_client_ip 1
    {| headers := [("X-Real-IP", " ")];
       client := Some {| host := "198.51.100.7"; port := 443 |} |}
  = Return ""
  ∧ extract_ip_from_headers 1 {[ "x-real-ip" := " " ]} None = Return "".
Proof.
  split.
  - by apply (real_ip_after_empty_chain 1 _ " ").
  - by apply (extract_real_ip_after_empty_chain 1 _ None " ").
Qed.

(** C4 (header-only asymmetry).  With trust depth 0, whether passed as the
    argument or taken from the configuration, [extract_ip_from_headers]
    returns the sentinel ["unknown"] for every header mapping; there are
    requests for which [get_client_ip] at depth 0 returns the peer address
    while the header-only variant on the same headers returns the
    sentinel. *)
Theorem header_only_zero_depth_sentinel :
  (∀ cfg (hdrs : gmap string string),
     extract_ip_from_headers cfg hdrs (Some 0) = Return "unknown")
  ∧ (∀ hdrs : gmap string string,
       extract_ip_from_headers 0 hdrs None = Return "unknown")
  ∧ (∀ hs c,
       Py.truthy (host c) = true →
       get_client_ip 0 {| headers := hs; client := Some c |} = Return (host c)
       ∧ extract_ip_from_headers 0 (list_to_map hs) None = Return "unknown").
Proof.
  split; [done|]. split; [done|].
  intros hs c Hc. split; [|done].
  rewrite get_client_ip_zero. unfold peer_address. simpl. by rewrite Hc.
Qed.

Lemma header_only_zero_depth_sentinel_witness :
  get_client_ip 0
    {| headers := [("x-forwarded-for", "1.2.3.4")];
       client := Some {| host := "203.0.113.5"; port := 51234 |} |}
  = Return "203.0.113.5"
  ∧ extract_ip_from_headers 0
      (list_to_map [("x-forwarded-for", "1.2.3.4")]) None
    = Return "unknown".
Proof.
  apply (proj2 (proj2 header_only_zero_depth_sentinel)). reflexivity.
Defined.

(** C6 (fallback ordering).  With a trust depth [N > 0]: two requests
    carrying the same X-Forwarded-For header with a non-empty parsed chain
    give the same result, whatever their X-Real-IP headers and peer
    addresses are; and when X-Forwarded-For is absent or parses to an empty
    chain and X-Real-IP is present and not empty, the result is the trimmed
    X-Real-IP value, whatever the peer address is. *)
Theorem fallback_ordering (N : Z) :
  0 < N →
  (∀ v r1 r2,
     ips v ≠ [] →
     headers_get (headers r1) "X-Forwarded-For" = Some v →
     headers_get (headers r2) "X-Forwarded-For" = Some v →
     get_client_ip N r1 = get_client_ip N r2)
  ∧ (∀ request w,
       spec_proxy_chain (headers_get (headers request) "X-Forwarded-For") = []
       → headers_get (headers request) "X-Real-IP" = Some w → w ≠ "" →
       get_client_ip N request = Return (Py.strip w)).
Proof.
  intros HN. split.
  - intros v r1 r2 Hv H1 H2.
    rewrite !get_client_ip_positive, H1, H2 by done.
    change (or_empty (Some v)) with v.
    by destruct (spec_select_is_Some (ips v) N) as [x ->]; [lia|done|].
  - intros request w Hchain Hreal Hw. by apply real_ip_after_empty_chain.
Qed.

Lemma fallback_ordering_witness :
  get_client_ip 1
    {| headers := [("X-Forwarded-For", "1.2.3.4, 10.0.0.1");
                   ("X-Real-IP", "9.9.9.9")];
       client := Some {| host := "203.0.113.5"; port := 51234 |} |}
  = get_client_ip 1
      {| headers := [("X-Forwarded-For", "1.2.3.4, 10.0.0.1")];
         client := None |}
  ∧ get_client_ip 2
      {| headers := [("X-Forwarded-For", " , "); ("X-Real-IP", "  9.9.9.9  ")];
         client := Some {| host := "203.0.113.5"; port := 51234 |} |}
    = Return "9.9.9.9".
Proof.
  split.
  - apply (proj1 (fallback_ordering 1 ltac:(lia)) "1.2.3.4, 10.0.0.1");
      [discriminate | reflexivity | reflexivity].
  - apply (proj2 (fallback_ordering 2 ltac:(lia)) _ "  9.9.9.9  ");
      [reflexivity | reflexivity | discriminate].
Defined.

(** C7 (proxy-chain parsing).  The list built from a raw header is the
    header split on commas, each piece trimmed, the empty results dropped
    and the order kept.  Splitting is exact: the pieces joined by commas
    are the header, and no piece holds a comma.  Trimming removes a prefix
    and a suffix of whitespace and leaves no whitespace at either end.  An
    absent, empty or all-whitespace header gives the empty sequence;
    ["1.2.3.4, , 10.0.0.1"] gives exactly [["1.2.3.4"; "10.0.0.1"]]; and the
    length comparison and the indexing of the resolver work on the filtered
    sequence. *)
Theorem proxy_chain_parsing :
  (∀ s, ips s = spec_proxy_chain (Some s))
  ∧ (∀ s, Py.join "," (Py.split "," s) = s
          ∧ Forall (λ piece, occurs "," piece = false) (Py.split "," s))
  ∧ (∀ piece, ∃ l r,
       piece = l +:+ Py.strip piece +:+ r
       ∧ all_space l = true ∧ all_space r = true
       ∧ starts_with_space (Py.strip piece) = false
       ∧ ends_with_space (Py.strip piece) = false)
  ∧ (∀ s, ips s `sublist_of` (Py.strip <$> Py.split "," s))
  ∧ (∀ s x, x ∈ ips s ↔ x ∈ (Py.strip <$> Py.split "," s) ∧ x ≠ "")
  ∧ spec_proxy_chain None = []
  ∧ ips (or_empty None) = []
  ∧ (∀ s, all_space s = true → ips s = [])
  ∧ ips "1.2.3.4, , 10.0.0.1" = ["1.2.3.4"; "10.0.0.1"]
  ∧ (∀ n h, 0 ≤ n →
       forwarded_for_block (or_empty h) n
       = Return <$> spec_select (spec_proxy_chain h) n).
Proof.
  split; [apply ips_spec|].
  split; [intros s; split; [apply join_split | apply split_pieces_free]|].
  split; [apply strip_decompose|].
  split; [intros s; rewrite ips_spec; apply sublist_filter|].
  split.
  { intros s x. rewrite ips_spec. unfold spec_proxy_chain.
    rewrite list_elem_of_filter. tauto. }
  split; [done|]. split; [done|].
  split; [apply ips_all_space|]. split; [done|].
  intros n h Hn. by rewrite forwarded_for_block_select, chain_of_header.
Qed.

Lemma proxy_chain_parsing_witness :
  ips "  " = []
  ∧ forwarded_for_block "1.2.3.4, , 10.0.0.1" 1 = Some (Return "1.2.3.4").
Proof.
  destruct proxy_chain_parsing
    as (_ & _ & _ & _ & _ & _ & _ & Hspace & _ & Hblock).
  split.
  - apply Hspace. reflexivity.
  - apply (Hblock 1 (Some "1.2.3.4, , 10.0.0.1")). lia.
Defined.

(** C8 (totality).  For every trust depth [N >= 0], [get_client_ip] and
    [extract_ip_from_headers] return a string on every input and never
    raise; the index [-(N + 1)] is in range for every chain with more than
    [N] entries, which is the only case in which it is evaluated. *)
Theorem resolvers_total (N : Z) :
  0 ≤ N →
  (∀ request, ∃ s, get_client_ip N request = Return s)
  ∧ (∀ cfg (hdrs : gmap string string) tpc,
       depth_in_force cfg tpc = N →
       ∃ s, extract_ip_from_headers cfg hdrs tpc = Return s)
  ∧ (∀ chain : list string,
       N < Z.of_nat (length chain) →
       is_Some (Py.getitem chain (- (N + 1))))
  ∧ (∀ s, Z.of_nat (length (ips s)) ≤ N →
       forwarded_for_block s N = Return <$> ips s !! 0%nat).
Proof.
  intros HN. split; [|split; [|split]].
  - intros request. destruct (Z.eq_dec N 0) as [->|Hne].
    + rewrite get_client_ip_zero. by eexists.
    + rewrite get_client_ip_positive by lia.
      destruct (spec_select _ N); [by eexists|].
      unfold real_ip_block. destruct (Py.truthy _); by eexists.
  - intros cfg hdrs tpc <-. destruct (Z.eq_dec (depth_in_force cfg tpc) 0)
      as [H0|Hne].
    + unfold extract_ip_from_headers, depth_in_force in *.
      destruct tpc; simpl in H0; rewrite H0; by eexists.
    + rewrite extract_ip_from_headers_positive by lia.
      destruct (spec_select _ _); [by eexists|].
      unfold real_ip_block. destruct (Py.truthy _); by eexists.
  - intros chain Hlen. rewrite getitem_from_end by done.
    apply lookup_lt_is_Some_2. lia.
  - intros s Hlen.
    by rewrite forwarded_for_block_select, spec_select_short.
Qed.

Lemma resolvers_total_witness :
  (∃ s, get_client_ip 3
          {| headers := [("X-Forwarded-For", " , ,")]; client := None |}
        = Return s)
  ∧ (∃ s, extract_ip_from_headers 3 {[ "x-forwarded-for" := "a, b" ]} None
          = Return s)
  ∧ is_Some (Py.getitem ["a"; "b"; "c"; "d"] (- (3 + 1))).
Proof.
  destruct (resolvers_total 3 ltac:(lia)) as (Hget & Hextract & Hindex & _).
  split; [apply Hget|]. split; [by apply Hextract|].
  apply Hindex. simpl. lia.
Defined.

(** C9 (case-sensitive lookup of the header-only variant).
    [extract_ip_from_headers] looks at its mapping under the exact keys
    ["x-forwarded-for"] and ["x-real-ip"] only: its result is fixed by the
    values under these two keys, and with a trust depth [N > 0] a mapping
    none of whose keys is one of the two, such as one that spells a header
    ["X-Forwarded-For"], gives the sentinel ["unknown"].  The lookup of the
    request object matches a header name in any capitalisation. *)
Theorem header_only_lookup_case_sensitive :
  (∀ cfg (h1 h2 : gmap string string) tpc,
     h1 !! "x-forwarded-for" = h2 !! "x-forwarded-for" →
     h1 !! "x-real-ip" = h2 !! "x-real-ip" →
     extract_ip_from_headers cfg h1 tpc = extract_ip_from_headers cfg h2 tpc)
  ∧ (∀ cfg (hdrs : gmap string string) tpc,
       0 < depth_in_force cfg tpc →
       (∀ k v, hdrs !! k = Some v →
               k ≠ "x-forwarded-for" ∧ k ≠ "x-real-ip") →
       extract_ip_from_headers cfg hdrs tpc = Return "unknown")
  ∧ (∀ N name v c,
       0 < N → Py.lower name = "x-forwarded-for" → ips v ≠ [] →
       ∃ x, x ∈ ips v
            ∧ get_client_ip N {| headers := [(name, v)]; client := c |}
              = Return x)
  ∧ extract_ip_from_headers 1 {[ "X-Forwarded-For" := "1.2.3.4" ]} None
    = Return "unknown"
  ∧ get_client_ip 1
      {| headers := [("X-Forwarded-For", "1.2.3.4")]; client := None |}
    = Return "1.2.3.4".
Proof.
  split; [|split; [|split; [|split]]].
  - intros cfg h1 h2 tpc Hf Hr. unfold extract_ip_from_headers.
    by rewrite Hf, Hr.
  - intros cfg hdrs tpc HN Hkeys.
    rewrite extract_ip_from_headers_positive by done.
    destruct (hdrs !! "x-forwarded-for") as [v|] eqn:Hf;
      [by destruct (Hkeys _ _ Hf) as [? _]|].
    destruct (hdrs !! "x-real-ip") as [v|] eqn:Hr;
      [by destruct (Hkeys _ _ Hr) as [_ ?]|].
    simpl. rewrite ips_empty_string. by rewrite spec_select_empty by lia.
  - intros N name v c HN Hname Hv.
    destruct (spec_select_is_Some (ips v) N) as [x Hx]; [lia|done|].
    exists x. split; [by eapply spec_select_elem|].
    rewrite get_client_ip_positive by done. cbn [headers].
    rewrite (headers_get_first name v []) by by rewrite Hname.
    change (or_empty (Some v)) with v. by rewrite Hx.
  - reflexivity.
  - reflexivity.
Qed.

Lemma header_only_lookup_case_sensitive_witness :
  extract_ip_from_headers 4
    {[ "X-Real-IP" := "9.9.9.9" ]} (Some 2) = Return "unknown"
  ∧ ∃ x, x ∈ ips "1.2.3.4, 10.0.0.1"
         ∧ get_client_ip 1
             {| headers := [("x-FORWARDED-for", "1.2.3.4, 10.0.0.1")];
                client := None |}
           = Return x.
Proof.
  destruct header_only_lookup_case_sensitive as (_ & Hkeys & Hreq & _).
  split.
  - apply Hkeys; [simpl; lia|].
    intros k v Hk. apply lookup_singleton_Some in Hk as [<- _].
    split; discriminate.
  - apply Hreq; [lia | reflexivity | discriminate].
Defined.

(** C10 (the result is a chain entry).  With a trust depth [N > 0] and an
    X-Forwarded-For header whose parsed chain is not empty, both resolvers
    return an entry of that chain, which is the trimmed form of one
    comma-separated piece of the header and is not empty. *)
Theorem result_is_chain_entry (N : Z) (v : string) :
  0 < N → ips v ≠ [] →
  ∃ x, x ∈ ips v
       ∧ (∃ piece, piece ∈ Py.split "," v ∧ x = Py.strip piece ∧ x ≠ "")
       ∧ (∀ request,
            headers_get (headers request) "X-Forwarded-For" = Some v →
            get_client_ip N request = Return x)
       ∧ (∀ cfg (hdrs : gmap string string) tpc,
            depth_in_force cfg tpc = N →
            hdrs !! "x-forwarded-for" = Some v →
            extract_ip_from_headers cfg hdrs tpc = Return x).
Proof.
  intros HN Hv.
  destruct (spec_select_is_Some (ips v) N) as [x Hx]; [lia|done|].
  pose proof (spec_select_elem _ _ _ Hx) as Hin.
  exists x. split; [done|]. split; [by apply elem_of_ips|]. split.
  - intros request Hf. rewrite get_client_ip_positive, Hf by done.
    change (or_empty (Some v)) with v. by rewrite Hx.
  - intros cfg hdrs tpc <- Hf.
    rewrite extract_ip_from_headers_positive, Hf by done.
    change (default "" (Some v)) with v. by rewrite Hx.
Qed.

Lemma result_is_chain_entry_witness :
  ∃ x, x ∈ ips " 1.2.3.4 ,, 10.0.0.1 , 10.0.0.2"
       ∧ get_client_ip 1
           {| headers :=
                [("X-Forwarded-For", " 1.2.3.4 ,, 10.0.0.1 , 10.0.0.2")];
              client := None |}
         = Return x.
Proof.
  destruct (result_is_chain_entry 1 " 1.2.3.4 ,, 10.0.0.1 , 10.0.0.2")
    as (x & Hin & _ & Hget & _); [lia | discriminate |].
  exists x. split; [done|]. apply Hget. reflexivity.
Defined.

(** ** Further properties of the module *)

Local Open Scope list_scope.

Section ChainAlgebra.

Lemma occurs_app c a b : occurs c (a +:+ b) = occurs c a || occurs c b.
Proof.
  induction a as [|d a IH]; [done|].
  rewrite append_cons. simpl. by rewrite IH, orb_assoc.
Qed.

(** Splitting two strings joined by the separator gives the pieces of the
    first followed by the pieces of the second. *)
Lemma split_app sep a b :
  Py.split sep (a +:+ String sep b) = Py.split sep a ++ Py.split sep b.
Proof.
  induction a as [|c a IH].
  - rewrite append_empty. simpl. by rewrite Ascii.eqb_refl.
  - rewrite append_cons. simpl. rewrite IH.
    pose proof (split_nonempty sep a) as Hne.
    destruct (Ascii.eqb c sep); [done|].
    by destruct (Py.split sep a).
Qed.

Lemma comprehension_app l1 l2 :
  comprehension (l1 ++ l2) = comprehension l1 ++ comprehension l2.
Proof.
  induction l1 as [|ip l1 IH]; [done|]. simpl.
  destruct (Py.truthy (Py.strip ip)); by rewrite IH.
Qed.

Lemma ips_app a b : ips (a +:+ "," +:+ b) = ips a ++ ips b.
Proof.
  unfold ips. change ("," +:+ b) with (String "," b).
  by rewrite split_app, comprehension_app.
Qed.

Lemma lstrip_fixed s : starts_with_space s = false → Py.lstrip s = s.
Proof. destruct s as [|c s]; simpl; [done|]. by intros ->. Qed.

Lemma rstrip_fixed s : ends_with_space s = false → Py.rstrip s = s.
Proof.
  induction s as [|c s IH]; [done|]. simpl.
  destruct s as [|d s].
  - simpl. by intros ->.
  - intros H. by rewrite (IH H).
Qed.

Lemma strip_fixed s :
  starts_with_space s = false → ends_with_space s = false → Py.strip s = s.
Proof. intros Hs He. unfold Py.strip. by rewrite lstrip_fixed, rstrip_fixed. Qed.

Lemma strip_idempotent s : Py.strip (Py.strip s) = Py.strip s.
Proof.
  destruct (strip_decompose s) as (l & r & _ & _ & _ & Hs & He).
  by apply strip_fixed.
Qed.

Lemma strip_no_new_char c s : occurs c s = false → occurs c (Py.strip s) = false.
Proof.
  intros H. destruct (strip_decompose s) as (l & r & Hs & _).
  rewrite Hs, !occurs_app in H.
  apply orb_false_iff in H as [_ H]. by apply orb_false_iff in H as [H _].
Qed.

(** Selection from the end looks at the tail of the chain only. *)
Lemma spec_select_app_long (front chain : list string) n :
  0 ≤ n → n < Z.of_nat (length chain) →
  spec_select (front ++ chain) n = spec_select chain n.
Proof.
  intros H0 Hn.
  rewrite !spec_select_long by (rewrite ?length_app; lia).
  rewrite length_app, lookup_app_r by lia. f_equal. lia.
Qed.

(** With too few entries behind it, the front of the chain is selected. *)
Lemma spec_select_app_short (front chain : list string) n :
  0 ≤ n → Z.of_nat (length chain) ≤ n → front ≠ [] →
  ∃ x, x ∈ front ∧ spec_select (front ++ chain) n = Some x.
Proof.
  intros H0 Hn Hfront.
  assert (0 < length front)%nat by (destruct front; [done|simpl; lia]).
  unfold spec_select. rewrite length_app.
  destruct (Z.ltb_spec n (Z.of_nat (length front + length chain))).
  - destruct (lookup_lt_is_Some_2 front
                (Z.to_nat (Z.of_nat (length front + length chain) - n - 1)))
      as [x Hx]; [lia|].
    exists x. split; [by eapply list_elem_of_lookup_2|].
    by rewrite lookup_app_l by lia.
  - destruct front as [|x front]; [done|].
    exists x. split; [left|done].
Qed.

(** Entries appended at the end are skipped by a depth raised by their
    number. *)
Lemma spec_select_app_hops (chain hops : list string) n :
  0 ≤ n → n < Z.of_nat (length chain) →
  spec_select (chain ++ hops) (n + Z.of_nat (length hops))
  = spec_select chain n.
Proof.
  intros H0 Hn.
  rewrite !spec_select_long by (rewrite ?length_app; lia).
  rewrite length_app, lookup_app_l by lia. f_equal. lia.
Qed.

End ChainAlgebra.

Section Selection.

Lemma longer_nonempty {A} (l : list A) n :
  0 ≤ n → n < Z.of_nat (length l) → l ≠ [].
Proof. intros H0 Hn ->. simpl in Hn. lia. Qed.

Lemma get_client_ip_selected N request v x :
  0 < N → headers_get (headers request) "X-Forwarded-For" = Some v →
  spec_select (ips v) N = Some x → get_client_ip N request = Return x.
Proof.
  intros HN Hv Hx. rewrite get_client_ip_positive, Hv by done.
  change (or_empty (Some v)) with v. by rewrite Hx.
Qed.

Lemma extract_ip_from_headers_selected cfg (hdrs : gmap string string) tpc v x :
  0 < depth_in_force cfg tpc → hdrs !! "x-forwarded-for" = Some v →
  spec_select (ips v) (depth_in_force cfg tpc) = Some x →
  extract_ip_from_headers cfg hdrs tpc = Return x.
Proof.
  intros HN Hv Hx. rewrite extract_ip_from_headers_positive, Hv by done.
  change (default "" (Some v)) with v. by rewrite Hx.
Qed.

(** An entry of the chain is a clean token: not empty, without whitespace
    at its ends, without a comma, and left alone by another [strip]. *)
Lemma chain_entry_clean x v :
  x ∈ ips v →
  x ≠ "" ∧ starts_with_space x = false ∧ ends_with_space x = false
  ∧ occurs "," x = false ∧ Py.strip x = x.
Proof.
  intros (piece & Hpiece & -> & Hne)%elem_of_ips.
  destruct (strip_decompose piece) as (l & r & _ & _ & _ & Hs & He).
  repeat split; try done.
  - apply strip_no_new_char.
    pose proof (split_pieces_free "," v) as Hfree.
    rewrite Forall_forall in Hfree. by apply Hfree.
  - apply strip_idempotent.
Qed.

End Selection.

(** X1.  What a client puts in front of the header is ignored once the
    chain behind it has more entries than the trust depth: with a depth
    [N > 0] and a header [v] of more than [N] entries, both resolvers give
    the same result for [v] and for [forged, v], whatever [forged] is. *)
Theorem forged_prefix_ignored (N : Z) (forged v : string) :
  0 < N → N < Z.of_nat (length (ips v)) →
  ∃ x,
    (∀ request,
       headers_get (headers request) "X-Forwarded-For" = Some v →
       get_client_ip N request = Return x)
    ∧ (∀ request,
         headers_get (headers request) "X-Forwarded-For"
         = Some (forged +:+ "," +:+ v) →
         get_client_ip N request = Return x)
    ∧ (∀ cfg (hdrs : gmap string string) tpc,
         depth_in_force cfg tpc = N →
         hdrs !! "x-forwarded-for" = Some v
         ∨ hdrs !! "x-forwarded-for" = Some (forged +:+ "," +:+ v) →
         extract_ip_from_headers cfg hdrs tpc = Return x).
Proof.
  intros HN HM.
  destruct (spec_select_is_Some (ips v) N) as [x Hx];
    [lia | by apply (longer_nonempty _ N); lia |].
  assert (spec_select (ips (forged +:+ "," +:+ v)) N = Some x) as Hx'
    by by rewrite ips_app, spec_select_app_long by lia.
  exists x. split; [|split].
  - intros request Hv. by eapply get_client_ip_selected.
  - intros request Hv. by eapply get_client_ip_selected.
  - intros cfg hdrs tpc <- [Hv|Hv];
      by eapply extract_ip_from_headers_selected.
Qed.

Lemma forged_prefix_ignored_witness :
  get_client_ip 1
    {| headers := [("X-Forwarded-For", "6.6.6.6, 7.7.7.7,1.2.3.4, 10.0.0.1")];
       client := None |}
  = get_client_ip 1
      {| headers := [("X-Forwarded-For", "1.2.3.4, 10.0.0.1")];
         client := None |}.
Proof.
  destruct (forged_prefix_ignored 1 "6.6.6.6, 7.7.7.7" "1.2.3.4, 10.0.0.1")
    as (x & Hplain & Hforged & _); [lia | vm_compute; reflexivity |].
  transitivity (Return x).
  - apply Hforged. reflexivity.
  - symmetry. apply Hplain. reflexivity.
Defined.

(** X2.  With a depth [N > 0] and a header [v] of at most [N] entries, the
    result is taken from whatever stands in front of it: for the header
    [forged, v], where [forged] has at least one entry, both resolvers
    return an entry of [forged]. *)
Theorem short_chain_prefix_selected (N : Z) (forged v : string) :
  0 < N → Z.of_nat (length (ips v)) ≤ N → ips forged ≠ [] →
  ∃ x, x ∈ ips forged
    ∧ (∀ request,
         headers_get (headers request) "X-Forwarded-For"
         = Some (forged +:+ "," +:+ v) →
         get_client_ip N request = Return x)
    ∧ (∀ cfg (hdrs : gmap string string) tpc,
         depth_in_force cfg tpc = N →
         hdrs !! "x-forwarded-for" = Some (forged +:+ "," +:+ v) →
         extract_ip_from_headers cfg hdrs tpc = Return x).
Proof.
  intros HN HM Hforged.
  destruct (spec_select_app_short (ips forged) (ips v) N)
    as (x & Hin & Hx); [lia | done | done |].
  rewrite <- ips_app in Hx.
  exists x. split; [done|]. split.
  - intros request Hv. by eapply get_client_ip_selected.
  - intros cfg hdrs tpc <- Hv. by eapply extract_ip_from_headers_selected.
Qed.

Lemma short_chain_prefix_selected_witness :
  get_client_ip 2
    {| headers := [("X-Forwarded-For", "6.6.6.6,1.2.3.4, 10.0.0.1")];
       client := None |}
  = Return "6.6.6.6".
Proof.
  destruct (short_chain_prefix_selected 2 "6.6.6.6" "1.2.3.4, 10.0.0.1")
    as (x & Hin & Hget & _); [lia | vm_compute; discriminate | discriminate |].
  vm_compute in Hin. apply list_elem_of_singleton in Hin. subst x.
  apply Hget. reflexivity.
Defined.

(** X3.  Entries appended by further proxies are skipped by a depth raised
    by their number: if depth [N > 0] selects [x] from a header [v] of more
    than [N] entries, then depth [N + k] selects the same [x] from
    [v, hops], where [k] is the number of entries of [hops]. *)
Theorem appended_hops_skipped (N : Z) (v hops : string) :
  0 < N → N < Z.of_nat (length (ips v)) →
  ∃ x,
    (∀ request,
       headers_get (headers request) "X-Forwarded-For" = Some v →
       get_client_ip N request = Return x)
    ∧ (∀ request,
         headers_get (headers request) "X-Forwarded-For"
         = Some (v +:+ "," +:+ hops) →
         get_client_ip (N + Z.of_nat (length (ips hops))) request = Return x)
    ∧ (∀ cfg (hdrs : gmap string string),
         hdrs !! "x-forwarded-for" = Some v →
         extract_ip_from_headers cfg hdrs (Some N) = Return x)
    ∧ (∀ cfg (hdrs : gmap string string),
         hdrs !! "x-forwarded-for" = Some (v +:+ "," +:+ hops) →
         extract_ip_from_headers cfg hdrs
           (Some (N + Z.of_nat (length (ips hops))))
         = Return x).
Proof.
  intros HN HM.
  destruct (spec_select_is_Some (ips v) N) as [x Hx];
    [lia | by apply (longer_nonempty _ N); lia |].
  assert (spec_select (ips (v +:+ "," +:+ hops))
            (N + Z.of_nat (length (ips hops))) = Some x) as Hx'
    by by rewrite ips_app, spec_select_app_hops by lia.
  exists x. split; [|split; [|split]].
  - intros request Hv. by eapply get_client_ip_selected.
  - intros request Hv. eapply get_client_ip_selected; [lia|done..].
  - intros cfg hdrs Hv. by eapply extract_ip_from_headers_selected.
  - intros cfg hdrs Hv.
    eapply extract_ip_from_headers_selected; [simpl; lia|done..].
Qed.

Lemma appended_hops_skipped_witness :
  get_client_ip 1
    {| headers := [("X-Forwarded-For", "1.2.3.4, 10.0.0.1")];
       client := None |}
  = Return "1.2.3.4"
  ∧ get_client_ip 3
      {| headers :=
           [("X-Forwarded-For", "1.2.3.4, 10.0.0.1,10.0.0.2, 10.0.0.3")];
         client := None |}
    = Return "1.2.3.4".
Proof.
  destruct (appended_hops_skipped 1 "1.2.3.4, 10.0.0.1" "10.0.0.2, 10.0.0.3")
    as (x & Hplain & Hhops & _); [lia | vm_compute; reflexivity |].
  pose proof (Hplain {| headers := [("X-Forwarded-For", "1.2.3.4, 10.0.0.1")];
                        client := None |} eq_refl) as Hx.
  vm_compute in Hx. injection Hx as <-. split.
  - apply Hplain. reflexivity.
  - apply (Hhops {| headers :=
           [("X-Forwarded-For", "1.2.3.4, 10.0.0.1,10.0.0.2, 10.0.0.3")];
         client := None |}). reflexivity.
Defined.

(** X4.  With a depth [N > 0] and a header whose chain is not empty, the
    address both resolvers return is a clean token: it is not empty, has no
    whitespace at either end, holds no comma, and trimming it again changes
    nothing. *)
Theorem result_is_clean_token (N : Z) (v : string) :
  0 < N → ips v ≠ [] →
  ∃ x,
    (∀ request,
       headers_get (headers request) "X-Forwarded-For" = Some v →
       get_client_ip N request = Return x)
    ∧ (∀ cfg (hdrs : gmap string string) tpc,
         depth_in_force cfg tpc = N →
         hdrs !! "x-forwarded-for" = Some v →
         extract_ip_from_headers cfg hdrs tpc = Return x)
    ∧ x ≠ "" ∧ starts_with_space x = false ∧ ends_with_space x = false
    ∧ occurs "," x = false ∧ Py.strip x = x.
Proof.
  intros HN Hv.
  destruct (spec_select_is_Some (ips v) N) as [x Hx]; [lia|done|].
  exists x. split; [|split].
  - intros request Hf. by eapply get_client_ip_selected.
  - intros cfg hdrs tpc <- Hf. by eapply extract_ip_from_headers_selected.
  - eapply chain_entry_clean, spec_select_elem, Hx.
Qed.

Lemma result_is_clean_token_witness :
  ∃ x, get_client_ip 2
         {| headers := [("X-Forwarded-For", "  1.2.3.4 ,, 10.0.0.1  ")];
            client := None |}
       = Return x
       ∧ Py.strip x = x ∧ occurs "," x = false.
Proof.
  destruct (result_is_clean_token 2 "  1.2.3.4 ,, 10.0.0.1  ")
    as (x & Hget & _ & _ & _ & _ & Hcomma & Hstrip); [lia | discriminate |].
  exists x. split; [|done]. apply Hget. reflexivity.
Defined.

(** X5.  An entry made of whitespace only is no hop: wherever it stands in
    the header, at the front, at the end or between two parts, the parsed
    chain is the same as without it. *)
Theorem blank_entry_is_no_hop (w a b : string) :
  all_space w = true →
  ips (a +:+ "," +:+ w +:+ "," +:+ b) = ips (a +:+ "," +:+ b)
  ∧ ips (a +:+ "," +:+ w) = ips a
  ∧ ips (w +:+ "," +:+ a) = ips a.
Proof.
  intros Hw. apply ips_all_space in Hw.
  rewrite !ips_app, Hw. by rewrite app_nil_r.
Qed.

Lemma blank_entry_is_no_hop_witness :
  ips "1.2.3.4,  ,10.0.0.1" = ips "1.2.3.4,10.0.0.1".
Proof.
  apply (proj1 (blank_entry_is_no_hop "  " "1.2.3.4" "10.0.0.1" eq_refl)).
Defined.

Section NegativeDepth.

Lemma getitem_nonnegative {A} (l : list A) i :
  0 ≤ i → Py.getitem l i = l !! Z.to_nat i.
Proof.
  intros Hi. unfold Py.getitem. cbv zeta.
  assert ((i <? 0) = false) as E by (apply Z.ltb_ge; lia).
  rewrite E. cbv iota. rewrite E, orb_false_l.
  destruct (Z.leb_spec (Z.of_nat (length l)) i); [|reflexivity].
  symmetry. apply lookup_ge_None. lia.
Qed.

(** With a negative depth the length test always passes and the index
    counts from the front. *)
Lemma forwarded_for_block_negative s n :
  n < 0 → s ≠ "" →
  forwarded_for_block s n
  = Some (match ips s !! Z.to_nat (- n - 1) with
          | Some x => Return x
          | None => Raise IndexError
          end).
Proof.
  intros Hn Hs. unfold forwarded_for_block.
  apply truthy_true in Hs. rewrite Hs.
  destruct (Z.gtb_spec (Z.of_nat (length (ips s))) n); [|lia].
  unfold return_item. rewrite getitem_nonnegative by lia.
  by replace (Z.to_nat (- (n + 1))) with (Z.to_nat (- n - 1)) by lia.
Qed.

Lemma get_client_ip_negative n request v :
  n < 0 → headers_get (headers request) "X-Forwarded-For" = Some v →
  v ≠ "" →
  get_client_ip n request
  = match ips v !! Z.to_nat (- n - 1) with
    | Some x => Return x
    | None => Raise IndexError
    end.
Proof.
  intros Hn Hv Hne. unfold get_client_ip.
  destruct (Z.eqb_spec n 0); [lia|]. rewrite Hv.
  change (or_empty (Some v)) with v.
  by rewrite forwarded_for_block_negative.
Qed.

Lemma extract_ip_from_headers_negative cfg (hdrs : gmap string string) tpc v :
  depth_in_force cfg tpc < 0 → hdrs !! "x-forwarded-for" = Some v →
  v ≠ "" →
  extract_ip_from_headers cfg hdrs tpc
  = match ips v !! Z.to_nat (- depth_in_force cfg tpc - 1) with
    | Some x => Return x
    | None => Raise IndexError
    end.
Proof.
  intros Hn Hv Hne. unfold extract_ip_from_headers.
  replace (match tpc with Some n => n | None => cfg end)
    with (depth_in_force cfg tpc) by by destruct tpc.
  destruct (Z.eqb_spec (depth_in_force cfg tpc) 0); [lia|]. rewrite Hv.
  change (default "" (Some v)) with v.
  by rewrite forwarded_for_block_negative.
Qed.

(** Without a non-empty X-Forwarded-For value nothing is indexed. *)
Lemma forwarded_for_block_empty n : forwarded_for_block "" n = None.
Proof. reflexivity. Qed.

Lemma real_ip_block_returns real_ip rest :
  (∃ s, rest = Return s) → ∃ s, (real_ip_block real_ip ;;; rest) = Return s.
Proof.
  intros [s ->]. unfold real_ip_block.
  destruct (Py.truthy real_ip); by eexists.
Qed.

Lemma get_client_ip_returns n request :
  0 ≤ n → ∃ s, get_client_ip n request = Return s.
Proof.
  intros Hn. destruct (Z.eq_dec n 0) as [->|Hne].
  - rewrite get_client_ip_zero. by eexists.
  - rewrite get_client_ip_positive by lia.
    destruct (spec_select _ n); [by eexists|].
    apply real_ip_block_returns. by eexists.
Qed.

Lemma extract_ip_from_headers_returns cfg (hdrs : gmap string string) tpc :
  0 ≤ depth_in_force cfg tpc →
  ∃ s, extract_ip_from_headers cfg hdrs tpc = Return s.
Proof.
  intros Hn. destruct (Z.eq_dec (depth_in_force cfg tpc) 0) as [H0|Hne].
  - unfold extract_ip_from_headers, depth_in_force in *.
    destruct tpc; simpl in H0; rewrite H0; by eexists.
  - rewrite extract_ip_from_headers_positive by lia.
    destruct (spec_select _ _); [by eexists|].
    apply real_ip_block_returns. by eexists.
Qed.

End NegativeDepth.

(** X6.  A negative trust depth is not rejected by the module.  With a
    depth [N < 0] and a non-empty X-Forwarded-For header the length test
    always passes and the index [-(N + 1)] counts from the front: both
    resolvers return the entry at index [-N - 1], and raise [IndexError]
    when the chain has no such entry. *)
Theorem negative_depth_indexes_from_front (N : Z) (v : string) :
  N < 0 → v ≠ "" →
  (∀ request,
     headers_get (headers request) "X-Forwarded-For" = Some v →
     get_client_ip N request
     = match ips v !! Z.to_nat (- N - 1) with
       | Some x => Return x
       | None => Raise IndexError
       end)
  ∧ (∀ cfg (hdrs : gmap string string) tpc,
       depth_in_force cfg tpc = N →
       hdrs !! "x-forwarded-for" = Some v →
       extract_ip_from_headers cfg hdrs tpc
       = match ips v !! Z.to_nat (- N - 1) with
         | Some x => Return x
         | None => Raise IndexError
         end).
Proof.
  intros HN Hv. split.
  - intros request Hf. by apply get_client_ip_negative.
  - intros cfg hdrs tpc <- Hf. by apply extract_ip_from_headers_negative.
Qed.

Lemma negative_depth_indexes_from_front_witness :
  get_client_ip (-2)
    {| headers := [("X-Forwarded-For", "6.6.6.6, 1.2.3.4, 10.0.0.1")];
       client := None |}
  = Return "1.2.3.4"
  ∧ extract_ip_from_headers (-2) {[ "x-forwarded-for" := "6.6.6.6" ]} None
    = Raise IndexError.
Proof.
  split.
  - apply (proj1 (negative_depth_indexes_from_front (-2)
                    "6.6.6.6, 1.2.3.4, 10.0.0.1" ltac:(lia) ltac:(discriminate))).
    reflexivity.
  - apply (proj2 (negative_depth_indexes_from_front (-2) "6.6.6.6"
                    ltac:(lia) ltac:(discriminate))); reflexivity.
Defined.

(** X7.  The only way either resolver raises: the trust depth is negative,
    the X-Forwarded-For header is present and not empty, and its chain has
    at most [-N - 1] entries.  In every other case a string is returned. *)
Theorem resolver_raises_iff :
  (∀ N request e,
     get_client_ip N request = Raise e
     ↔ N < 0
       ∧ ∃ v, headers_get (headers request) "X-Forwarded-For" = Some v
              ∧ v ≠ "" ∧ Z.of_nat (length (ips v)) ≤ - N - 1)
  ∧ (∀ cfg (hdrs : gmap string string) tpc e,
       extract_ip_from_headers cfg hdrs tpc = Raise e
       ↔ depth_in_force cfg tpc < 0
         ∧ ∃ v, hdrs !! "x-forwarded-for" = Some v
                ∧ v ≠ ""
                ∧ Z.of_nat (length (ips v)) ≤ - depth_in_force cfg tpc - 1).
Proof.
  split.
  - intros N request e. split.
    + intros Hraise. destruct (Z.lt_ge_cases N 0) as [HN|HN].
      * split; [done|].
        destruct (headers_get (headers request) "X-Forwarded-For")
          as [v|] eqn:Hv.
        -- destruct (decide (v = "")) as [->|Hne].
           ++ exfalso. revert Hraise. unfold get_client_ip.
              destruct (Z.eqb_spec N 0); [lia|]. rewrite Hv. simpl.
              unfold real_ip_block, client_block.
              by repeat case_match.
           ++ exists v. split; [done|]. split; [done|].
              rewrite (get_client_ip_negative N request v) in Hraise by done.
              destruct (ips v !! Z.to_nat (- N - 1)) eqn:Hl; [done|].
              apply lookup_ge_None in Hl. lia.
        -- exfalso. revert Hraise. unfold get_client_ip.
           destruct (Z.eqb_spec N 0); [lia|]. rewrite Hv. simpl.
           unfold real_ip_block, client_block.
           by repeat case_match.
      * destruct (get_client_ip_returns N request HN) as [s Hs]. congruence.
    + intros (HN & v & Hv & Hne & Hlen).
      rewrite (get_client_ip_negative N request v) by done.
      rewrite (proj2 (lookup_ge_None (ips v) (Z.to_nat (- N - 1))))
        by lia.
      by destruct e.
  - intros cfg hdrs tpc e. split.
    + intros Hraise.
      destruct (Z.lt_ge_cases (depth_in_force cfg tpc) 0) as [HN|HN].
      * split; [done|].
        destruct (hdrs !! "x-forwarded-for") as [v|] eqn:Hv.
        -- destruct (decide (v = "")) as [->|Hne].
           ++ exfalso. revert Hraise. unfold extract_ip_from_headers.
              rewrite Hv. simpl. unfold real_ip_block.
              by repeat case_match.
           ++ exists v. split; [done|]. split; [done|].
              rewrite (extract_ip_from_headers_negative cfg hdrs tpc v)
                in Hraise by done.
              destruct (ips v !! _) eqn:Hl; [done|].
              apply lookup_ge_None in Hl. lia.
        -- exfalso. revert Hraise. unfold extract_ip_from_headers.
           rewrite Hv. simpl. unfold real_ip_block.
           by repeat case_match.
      * destruct (extract_ip_from_headers_returns cfg hdrs tpc HN)
          as [s Hs]. congruence.
    + intros (HN & v & Hv & Hne & Hlen).
      rewrite (extract_ip_from_headers_negative cfg hdrs tpc v) by done.
      rewrite (proj2 (lookup_ge_None (ips v) _)) by lia.
      by destruct e.
Qed.

Lemma resolver_raises_iff_witness :
  get_client_ip (-1)
    {| headers := [("X-Forwarded-For", " , ")]; client := None |}
  = Raise IndexError.
Proof.
  apply (proj1 resolver_raises_iff). split; [lia|].
  exists " , ". split; [reflexivity|]. split; [discriminate|].
  vm_compute. discriminate.
Defined.

(** X8.  The two resolvers differ in their last resort only.  When the
    mapping holds, under the two lower-case keys, what the request holds
    under X-Forwarded-For and X-Real-IP, and the trust depth is not 0, the
    header-only variant gives the result of [get_client_ip], except where
    [get_client_ip] falls back on the peer address: there the header-only
    variant gives the sentinel.  For a request without peer address the
    two agree. *)
Theorem variants_agree (N : Z) (request : Request) cfg
    (hdrs : gmap string string) tpc :
  N ≠ 0 → depth_in_force cfg tpc = N →
  hdrs !! "x-forwarded-for" = headers_get (headers request) "X-Forwarded-For" →
  hdrs !! "x-real-ip" = headers_get (headers request) "X-Real-IP" →
  (peer_address request = None →
   get_client_ip N request = extract_ip_from_headers cfg hdrs tpc)
  ∧ (get_client_ip N request = extract_ip_from_headers cfg hdrs tpc
     ∨ (extract_ip_from_headers cfg hdrs tpc = Return "unknown"
        ∧ ∃ h, peer_address request = Some h
               ∧ get_client_ip N request = Return h)).
Proof.
  intros HN <- Hf Hr.
  unfold get_client_ip, extract_ip_from_headers.
  replace (match tpc with Some n => n | None => cfg end)
    with (depth_in_force cfg tpc) by by destruct tpc.
  destruct (Z.eqb_spec (depth_in_force cfg tpc) 0) as [|_]; [done|].
  rewrite Hf, Hr, client_block_peer. unfold or_empty.
  destruct (forwarded_for_block _ _) as [out|]; simpl; [by split; [|left]|].
  destruct (real_ip_block _) as [out|]; simpl; [by split; [|left]|].
  split; [by intros ->|].
  destruct (peer_address request) as [h|]; [right|by left].
  split; [done|]. by exists h.
Qed.

Lemma variants_agree_witness :
  get_client_ip 2
    {| headers := [("X-Real-IP", " 9.9.9.9 ")]; client := None |}
  = extract_ip_from_headers 2 {[ "x-real-ip" := " 9.9.9.9 " ]} None.
Proof.
  apply (variants_agree 2); [lia | reflexivity..].
Defined.

Section Lookup.

(** Fields whose name does not match are passed over. *)
Lemma headers_get_skip pre rest key :
  (∀ field, field ∈ pre → Py.lower field.1 ≠ Py.lower key) →
  headers_get (pre ++ rest) key = headers_get rest key.
Proof.
  induction pre as [|[name value] pre IH]; [done|]. intros Hpre. simpl.
  destruct (String.eqb_spec (Py.lower name) (Py.lower key)) as [E|_].
  - exfalso. by apply (Hpre (name, value)); [left|].
  - apply IH. intros field Hin. apply Hpre. by right.
Qed.

Lemma headers_get_none hs key :
  (∀ field, field ∈ hs → Py.lower field.1 ≠ Py.lower key) →
  headers_get hs key = None.
Proof.
  intros Hhs. rewrite <- (app_nil_r hs). by rewrite headers_get_skip.
Qed.

End Lookup.

(** X9.  [get_user_agent] returns the value of the first field named
    User-Agent, in any capitalisation, exactly as it stands, be it empty
    or blank; it returns ["unknown"] when the request has no field of that
    name. *)
Theorem user_agent_first_field_verbatim :
  (∀ pre name value post c,
     (∀ field, field ∈ pre → Py.lower field.1 ≠ "user-agent") →
     Py.lower name = "user-agent" →
     get_user_agent {| headers := pre ++ (name, value) :: post; client := c |}
     = value)
  ∧ (∀ hs c,
       (∀ field, field ∈ hs → Py.lower field.1 ≠ "user-agent") →
       get_user_agent {| headers := hs; client := c |} = "unknown").
Proof.
  split.
  - intros pre name value post c Hpre Hname. unfold get_user_agent.
    cbn [headers]. rewrite headers_get_skip by done.
    by rewrite headers_get_first by by rewrite Hname.
  - intros hs c Hhs. unfold get_user_agent. cbn [headers].
    by rewrite headers_get_none.
Qed.

Lemma user_agent_first_field_verbatim_witness :
  get_user_agent
    {| headers := [("Host", "example.org"); ("USER-AGENT", " "); 
                   ("user-agent", "curl/8.0")];
       client := None |}
  = " "
  ∧ get_user_agent {| headers := [("Host", "example.org")]; client := None |}
    = "unknown".
Proof.
  destruct user_agent_first_field_verbatim as [Hfirst Hnone]. split.
  - apply (Hfirst [("Host", "example.org")] "USER-AGENT" " "
             [("user-agent", "curl/8.0")] None); [|reflexivity].
    intros field Hin. apply list_elem_of_singleton in Hin. subst field.
    discriminate.
  - apply Hnone. intros field Hin.
    apply list_elem_of_singleton in Hin. subst field. discriminate.
Defined.

(** X10.  [get_request_metadata] fails exactly when [get_client_ip] does,
    with the same exception and without a dict.  With a trust depth
    [N >= 0] it returns a dict with the eight keys of the display, whose
    ["client_ip"] is the address [get_client_ip] resolves and whose
    ["user_agent"] is the string of [get_user_agent], never [None];
    ["query_params"] is [None] exactly when the request has no query
    parameter. *)
Theorem metadata_follows_resolver
    (str_query_params : list (string * string) → string)
    (N : Z) (request : RequestView) :
  (∀ e, get_request_metadata str_query_params N request = Err e
        ↔ get_client_ip N (request_of request) = Raise e)
  ∧ (0 ≤ N →
     ∃ d ip,
       get_request_metadata str_query_params N request = Ok d
       ∧ get_client_ip N (request_of request) = Return ip
       ∧ d !! "client_ip" = Some (Some ip)
       ∧ d !! "user_agent"
         = Some (Some (get_user_agent (request_of request)))
       ∧ dom d
         = {[ "client_ip"; "user_agent"; "request_id"; "method"; "path";
              "query_params"; "content_type"; "content_length" ]}
       ∧ (d !! "query_params" = Some None ↔ query_params request = [])).
Proof.
  split.
  - intros e. unfold get_request_metadata.
    destruct (get_client_ip N (request_of request)); split; congruence.
  - intros HN. unfold get_request_metadata.
    destruct (get_client_ip_returns N (request_of request) HN) as [ip ->].
    eexists _, ip. split; [done|]. split; [done|].
    unfold dict_display. cbn [foldl fst snd].
    split; [by simplify_map_eq|]. split; [by simplify_map_eq|].
    split; [rewrite !dom_insert_L, dom_empty_L; set_solver|].
    simplify_map_eq. destruct (query_params request); simpl; split; congruence.
Qed.

Lemma metadata_follows_resolver_witness :
  ∃ d, get_request_metadata (λ _, "page=2") 1
         {| request_of :=
              {| headers := [("X-Forwarded-For", "1.2.3.4, 10.0.0.1")];
                 client := None |};
            state := ∅; method := "GET"; url_path := "/v1/usage";
            query_params := [("page", "2")] |}
       = Ok d
       ∧ d !! "client_ip" = Some (Some "1.2.3.4")
       ∧ d !! "user_agent" = Some (Some "unknown").
Proof.
  destruct (proj2 (metadata_follows_resolver (λ _, "page=2") 1
         {| request_of :=
              {| headers := [("X-Forwarded-For", "1.2.3.4, 10.0.0.1")];
                 client := None |};
            state := ∅; method := "GET"; url_path := "/v1/usage";
            query_params := [("page", "2")] |}) ltac:(lia))
    as (d & ip & Hd & Hip & Hclient & Hagent & _).
  vm_compute in Hip. injection Hip as <-.
  exists d. split; [exact Hd|]. split; [exact Hclient|exact Hagent].
Defined.

(** X11.  Parsing goes along with joining: the chain of two header values
    joined by a comma is the chain of the first followed by the chain of
    the second, so what a proxy appends after a comma never changes the
    entries before it. *)
Theorem chain_of_joined_headers (a b : string) :
  ips (a +:+ "," +:+ b) = ips a ++ ips b
  ∧ length (ips (a +:+ "," +:+ b)) = (length (ips a) + length (ips b))%nat
  ∧ (∀ i x, ips a !! i = Some x → ips (a +:+ "," +:+ b) !! i = Some x).
Proof.
  rewrite ips_app. split; [done|]. split; [apply length_app|].
  intros i x Hx. by apply lookup_app_l_Some.
Qed.

Lemma chain_of_joined_headers_witness :
  ips ("1.2.3.4, 10.0.0.1" +:+ "," +:+ " 10.0.0.2") !! 0%nat = Some "1.2.3.4".
Proof.
  apply (proj2 (proj2 (chain_of_joined_headers "1.2.3.4, 10.0.0.1" " 10.0.0.2"))).
  reflexivity.
Defined.
